(** * A shallow embedding of the [bus] package (bus.go)

    The package is a publish/subscribe bus: callers register handlers
    and channels per payload type, post payloads, and a dispatch loop
    ([run]) fans every posted payload out ([deliver]).

    Conventions of the embedding.
    - Go maps and channels are reference types.  Every method has the
      value receiver [b Bus], so the struct fields are never reassigned
      after [New], while the objects they refer to are shared by all
      copies of the struct (the copy returned by [New] and the copy
      captured by [go b.run()]).  The model therefore keeps ONE [Bus]
      state per machine and threads it through every operation: [None]
      is the nil reference, [Some x] is a reference to the shared object
      whose current content is [x].
    - A Go function call can return, panic, or block for ever on a
      channel; [outcome] has one constructor for each.
    - [log.Printf] lines and the two effects that matter to subscribers
      (calling a handler, writing a channel) are appended to the event
      list of the machine, oldest first.
    - A write to a subscriber's channel is the event [Send]: the model
      says that and when [deliver] makes the write, not when a reader
      takes the value.  The inbound channel is the queue of the riders
      handed over and not yet received by [run].
    - A handler is a Go function value: it is modelled by its identity
      ([Handler]) and by what a call does ([call]): it transforms the
      world outside the bus and returns an [error].  A handler that
      returns is what the model covers. *)

From Stdlib Require Import ZArith.
From stdpp Require Import gmap strings list.

Local Open Scope Z_scope.

(** ** Flags ([type flag int] and its two constants)

    The only operations on a flag are [==] and [&] on the two constants,
    so the width of [int] plays no part. *)

Definition flag := Z.

(** [synchronous flag = 1 << iota], first line of the block: iota = 0. *)
Definition synchronous : flag := Z.shiftl 1 0.

(** [asynchronous flag = 1 << iota], second line of the block: iota = 1. *)
Definition asynchronous : flag := Z.shiftl 1 1.

(** ** Payloads (the [Payload] interface) *)

(** A value of type [interface{}] stored in a payload's data bag. *)
Inductive any : Type :=
| AnyInt (n : Z)
| AnyString (s : string)
| AnyNil.

(** [type Payload interface { Type() string; Data() map[string]interface{} }].
    [Type] is a reserved word, hence [Type'].  A payload is a value that
    has the two methods; the nil interface value is none. *)
Class Payload (P : Type) := {
  Type' : P → string;
  Data : P → gmap string any
}.

(** ** Errors *)

(** A reading of [time.Now()]. *)
Definition Time := Z.

(** [type busError struct { When time.Time; What string }] *)
Record busError := { When : Time; What : string }.

(** [func (e *busError) Error() string], that is
    [fmt.Sprintf("at %v, %s", e.When, e.What)]; [show] is how [%v]
    prints a time. *)
Definition Error (show : Time → string) (e : busError) : string :=
  "at " +:+ show (When e) +:+ ", " +:+ What e.

(** A non-nil value of the interface [error]: a [*busError], or an error
    of some other implementation (what a handler may return), kept by
    its message. *)
Inductive error_value : Type :=
| BusError (e : busError)
| OtherError (msg : string).

(** The interface type [error]; [None] is [nil]. *)
Definition error := option error_value.

(** [chan Payload]: a reference to a caller-owned channel. *)
Definition Chan := nat.

(** ** Outcomes of a call

    A call made in state [s] returns a value and a new state, panics,
    or is blocked on a channel. *)

Inductive outcome (S A : Type) : Type :=
| Returned (a : A) (s : S)
| Panicked (msg : string)
| Blocked.

Arguments Returned {S A} a s.
Arguments Panicked {S A} msg.
Arguments Blocked {S A}.

Definition ret {S A : Type} (a : A) : S → outcome S A := λ s, Returned a s.

Definition bind {S A B : Type} (c : S → outcome S A) (k : A → S → outcome S B)
  : S → outcome S B :=
  λ s, match c s with
       | Returned a s' => k a s'
       | Panicked msg => Panicked msg
       | Blocked => Blocked
       end.

Notation "'do' x <- c ; k" := (bind c (λ x, k))
  (at level 10, x name, c at level 100, k at level 200).
Notation "c ;; k" := (bind c (λ _, k))
  (at level 100, k at level 200, right associativity).

Section Bus.

Context {P : Type} `{Payload P}.
Context {World Handler : Type} `{EqDecision Handler}.

(** [call h p w]: the call [h(p)] made in world [w]. *)
Variable call : Handler → P → World → World * error.

(** [type rider struct { payload Payload; mode flag }] *)
Record rider := { payload : P; mode : flag }.

(** [type Bus struct]: the content of the objects the four fields refer
    to.  [pubchan] holds the riders handed over by posters and not yet
    received by [run]. *)
Record Bus := {
  pubchan : option (list rider);
  subchans : option (gmap string (list Chan));
  handlers : option (gmap string (list Handler));
  flags : option (list (P * flag))
}.

(** The lines the package writes with [log.Print*], by format. *)
Inductive LogLine : Type :=
| Message (s : string)
| Posting (typ : string)
| Creating
| Running
| Broadcasting (typ : string) (how : string)
| Stopping
| ProcessingHandler (typ : string) (i : nat)
| HandlerFailed (h : Handler)
| ProcessingChannel (typ : string) (i : nat).

Inductive Event : Type :=
| Logged (l : LogLine)
| Call (h : Handler) (p : P) (err : error)
| Send (c : Chan) (p : P).

(** The whole program state: the bus, the world the handlers act on,
    what has happened so far, and the goroutines started by
    [go b.deliver(r)] that have not run yet. *)
Record Machine := {
  bus : Bus;
  world : World;
  events : list Event;
  detached : list rider
}.

Definition M (A : Type) : Type := Machine → outcome Machine A.

(** *** Primitive effects *)

Definition set_bus (b : Bus) (m : Machine) : Machine :=
  {| bus := b; world := world m; events := events m; detached := detached m |}.

Definition set_pubchan (q : option (list rider)) (b : Bus) : Bus :=
  {| pubchan := q; subchans := subchans b; handlers := handlers b; flags := flags b |}.

Definition set_subchans (s : option (gmap string (list Chan))) (b : Bus) : Bus :=
  {| pubchan := pubchan b; subchans := s; handlers := handlers b; flags := flags b |}.

Definition set_handlers (h : option (gmap string (list Handler))) (b : Bus) : Bus :=
  {| pubchan := pubchan b; subchans := subchans b; handlers := h; flags := flags b |}.

Definition emit (e : Event) : M unit :=
  λ m, Returned tt {| bus := bus m; world := world m;
                      events := events m ++ [e]; detached := detached m |}.

(** [log.Printf(...)] *)
Definition log (l : LogLine) : M unit := emit (Logged l).

(** [m[k]] with the comma-ok flag; reading a nil map gives the zero value. *)
Definition index {V : Type} (m : option (gmap string (list V))) (k : string)
  : list V * bool :=
  match m with
  | None => ([], false)
  | Some g => match g !! k with
              | Some v => (v, true)
              | None => ([], false)
              end
  end.

(** [m[k] = v]; [None] stands for the panic of a write to a nil map. *)
Definition assign {V : Type} (m : option (gmap string (list V))) (k : string)
  (v : list V) : option (option (gmap string (list V))) :=
  match m with
  | None => None
  | Some g => Some (Some (<[k := v]> g))
  end.

Definition nil_map_panic : string := "assignment to entry in nil map".

(** [b.pubchan <- r]: a send on a nil channel blocks for ever; otherwise
    the rider is handed to the dispatch loop. *)
Definition send_pubchan (r : rider) : M unit :=
  λ m, match pubchan (bus m) with
       | None => Blocked
       | Some q => Returned tt (set_bus (set_pubchan (Some (q ++ [r])) (bus m)) m)
       end.

(** [r := <-b.pubchan] as [range] does it: blocked while nothing has
    been handed over (and for ever on a nil channel). *)
Definition recv_pubchan : M rider :=
  λ m, match pubchan (bus m) with
       | Some (r :: q) => Returned r (set_bus (set_pubchan (Some q) (bus m)) m)
       | _ => Blocked
       end.

(** [err := h(r.payload)] *)
Definition invoke (h : Handler) (p : P) : M error :=
  λ m, let '(w, err) := call h p (world m) in
       Returned err {| bus := bus m; world := w;
                       events := events m ++ [Call h p err];
                       detached := detached m |}.

(** [c <- r.payload] *)
Definition send (c : Chan) (p : P) : M unit := emit (Send c p).

(** ** The methods of [Bus] *)

(** [func (b Bus) Log(message string)] *)
Definition Log (message : string) : M unit := log (Message message).

(** [func (b Bus) Post(p Payload) error] *)
Definition Post (p : P) : M error :=
  log (Posting (Type' p)) ;;
  let r := {| payload := p; mode := asynchronous |} in
  send_pubchan r ;;
  ret None.

(** [func (b Bus) PostAndWait(p Payload) error] *)
Definition PostAndWait (p : P) : M error :=
  log (Posting (Type' p)) ;;
  let r := {| payload := p; mode := synchronous |} in
  send_pubchan r ;;
  ret None.

Definition argument_error : string :=
  "Argument error: at least one handler must be registered.".

(** [func (b Bus) AddHandlers(typ string, fns ...Handler) error];
    [now] is what [time.Now()] reads when the error is built. *)
Definition AddHandlers (now : Time) (typ : string) (fns : list Handler) : M error :=
  λ m, if decide (0 < length fns)%nat then
         match assign (handlers (bus m)) typ
                      ((index (handlers (bus m)) typ).1 ++ fns) with
         | None => Panicked nil_map_panic
         | Some h => Returned None (set_bus (set_handlers h (bus m)) m)
         end
       else
         let message := argument_error in
         Returned (Some (BusError {| When := now; What := message |})) m.

(** [func (b Bus) AddChannel(typ string, c chan Payload)] *)
Definition AddChannel (typ : string) (c : Chan) : M unit :=
  λ m, if negb (index (subchans (bus m)) typ).2 then
         match assign (subchans (bus m)) typ [c] with
         | None => Panicked nil_map_panic
         | Some s => Returned tt (set_bus (set_subchans s (bus m)) m)
         end
       else
         let subchans' := (index (subchans (bus m)) typ).1 in
         match assign (subchans (bus m)) typ (subchans' ++ [c]) with
         | None => Panicked nil_map_panic
         | Some s => Returned tt (set_bus (set_subchans s (bus m)) m)
         end.

(** [func New() Bus]: [new(Bus)] zeroes the four fields, three of them
    are then made; [flags] stays nil.  [w] is the world at that time.
    The goroutine started by [go b.run()] is [run] below; what it does
    from then on is a sequence of [run_turn]s. *)
Definition New (w : World) : Machine :=
  {| bus := {| pubchan := Some [];
               subchans := Some ∅;
               handlers := Some ∅;
               flags := None |};
     world := w;
     events := [Logged Creating];
     detached := [] |}.

(** [func (b Bus) modestring(f flag) string] *)
Definition modestring (f : flag) : string :=
  if Z.land f asynchronous =? asynchronous then "asynchronously"
  else "synchronously".

(** The first loop of [deliver], [for i, h := range b.handlers[typ]],
    from index [i] on. *)
Fixpoint deliver_handlers (typ : string) (p : P) (i : nat) (hs : list Handler)
  : M unit :=
  match hs with
  | [] => ret tt
  | h :: hs' =>
      log (ProcessingHandler typ i) ;;
      do err <- invoke h p ;
      (if err is Some _ then log (HandlerFailed h) else ret tt) ;;
      deliver_handlers typ p (S i) hs'
  end.

(** The second loop of [deliver], [for i, c := range b.subchans[typ]]. *)
Fixpoint deliver_subchans (typ : string) (p : P) (i : nat) (cs : list Chan)
  : M unit :=
  match cs with
  | [] => ret tt
  | c :: cs' =>
      log (ProcessingChannel typ i) ;;
      send c p ;;
      deliver_subchans typ p (S i) cs'
  end.

(** [func (b Bus) deliver(r rider)]; each [range] reads its slice when
    the loop is entered. *)
Definition deliver (r : rider) : M unit :=
  let typ := Type' (payload r) in
  (λ m, deliver_handlers typ (payload r) 0 (index (handlers (bus m)) typ).1 m) ;;
  (λ m, deliver_subchans typ (payload r) 0 (index (subchans (bus m)) typ).1 m).

(** [go b.deliver(r)]: the delivery becomes a goroutine of its own. *)
Definition go_deliver (r : rider) : M unit :=
  λ m, Returned tt {| bus := bus m; world := world m; events := events m;
                      detached := detached m ++ [r] |}.

(** The body of the loop of [run], for the rider just received. *)
Definition run_body (r : rider) : M unit :=
  log (Broadcasting (Type' (payload r)) (modestring (mode r))) ;;
  if mode r =? asynchronous then go_deliver r else deliver r.

(** One turn of [for r := range b.pubchan]. *)
Definition run_turn : M unit :=
  do r <- recv_pubchan ; run_body r.

(** [func (b Bus) run()], for at most [n] turns of its loop.  The loop
    ends only when the channel is closed, which nothing in the package
    does, so ["Bus is stopping."] is never reached. *)
Fixpoint run_loop (n : nat) : M unit :=
  match n with
  | O => ret tt
  | S n' => run_turn ;; run_loop n'
  end.

Definition run (n : nat) : M unit := log Running ;; run_loop n.

(** The scheduler lets the [k]-th waiting delivery goroutine run. *)
Definition resume (k : nat) : M unit :=
  λ m, match detached m !! k with
       | None => Blocked
       | Some r =>
           deliver r {| bus := bus m; world := world m; events := events m;
                        detached := delete k (detached m) |}
       end.

(** ** What an observer sees of a run *)

(** The handlers and the channels registered for a type, as [deliver]
    reads them. *)
Definition registered (m : Machine) (typ : string) : list Handler :=
  (index (handlers (bus m)) typ).1.

Definition queues (m : Machine) (typ : string) : list Chan :=
  (index (subchans (bus m)) typ).1.

(** The handler calls of an event list, in the order they were made. *)
Definition calls (evs : list Event) : list (Handler * P * error) :=
  omap (λ e, match e with Call h p err => Some (h, p, err) | _ => None end) evs.

(** The channel writes of an event list, in the order they were made. *)
Definition sends (evs : list Event) : list (Chan * P) :=
  omap (λ e, match e with Send c p => Some (c, p) | _ => None end) evs.

(** The handlers reported by a ["Handler failed"] line. *)
Definition reports (evs : list Event) : list Handler :=
  omap (λ e, match e with Logged (HandlerFailed h) => Some h | _ => None end) evs.

(** The handlers whose call returned a non-nil error. *)
Definition failures (cs : list (Handler * P * error)) : list Handler :=
  omap (λ c, if c.2 is Some _ then Some c.1.1 else None) cs.

(** How often [h] occurs in a sequence of handlers. *)
Definition occurrences (h : Handler) (hs : list Handler) : nat :=
  length (filter (λ x, x = h) hs).


(** The state a call left, if it returned. *)
Definition final {A : Type} (o : outcome Machine A) : option Machine :=
  match o with
  | Returned _ m => Some m
  | _ => None
  end.

End Bus.

Section Steps.

Context {P : Type} `{Payload P}.
Context {World Handler : Type} `{EqDecision Handler}.
Variable call : Handler → P → World → World * error.

(** ** The states a program can reach

    What a program can do to a bus after [New]: call a method, let the
    dispatch loop take a turn, let a detached delivery run. *)
Inductive op : Type :=
| OpLog (message : string)
| OpPost (p : P)
| OpPostAndWait (p : P)
| OpAddHandlers (now : Time) (typ : string) (fns : list Handler)
| OpAddChannel (typ : string) (c : Chan)
| OpRunTurn
| OpResume (k : nat).

(** The state after [o], when [o] returns. *)
Definition exec (o : op) (m : Machine) : option (@Machine P World Handler) :=
  match o with
  | OpLog message => final (Log message m)
  | OpPost p => final (Post p m)
  | OpPostAndWait p => final (PostAndWait p m)
  | OpAddHandlers now typ fns => final (AddHandlers now typ fns m)
  | OpAddChannel typ c => final (AddChannel typ c m)
  | OpRunTurn => final (run_turn call m)
  | OpResume k => final (resume call k m)
  end.

Inductive reachable : @Machine P World Handler → Prop :=
| reachable_New (w : World) : reachable (New w)
| reachable_exec (m m' : Machine) (o : op) :
    reachable m → exec o m = Some m' → reachable m'.

(** The riders the bus still has to serve: handed over and not yet
    received, or detached and not yet run. *)
Definition pending (m : @Machine P World Handler) : list rider :=
  default [] (pubchan (bus m)) ++ detached m.

(** A rider carries one of the two declared modes. *)
Definition mode_ok (r : @rider P) : Prop :=
  mode r = synchronous ∨ mode r = asynchronous.

(** What holds of a bus made by [New]: the channel and the two
    registration tables exist, and every rider it still has to serve was
    built by [Post] or [PostAndWait]. *)
Definition ready (m : @Machine P World Handler) : Prop :=
  is_Some (pubchan (bus m)) ∧ is_Some (subchans (bus m)) ∧
  is_Some (handlers (bus m)) ∧ Forall mode_ok (pending m).


(** [AddChannel] as one unconditional append,
    [b.subchans[typ] = append(b.subchans[typ], c)]: the reading that
    the two branches of the method are compared with. *)
Definition AddChannel_append (typ : string) (c : Chan)
  : @Machine P World Handler → outcome Machine unit :=
  λ m, match assign (subchans (bus m)) typ
                    ((index (subchans (bus m)) typ).1 ++ [c]) with
       | None => Panicked nil_map_panic
       | Some s => Returned tt (set_bus (set_subchans s (bus m)) m)
       end.

(** ** More of what an observer sees *)

(** The types of the ["Posting payload"] lines of an event list. *)
Definition postings (evs : list (@Event P Handler)) : list string :=
  omap (λ e, match e with Logged (Posting typ) => Some typ | _ => None end) evs.

(** The ["Broadcasting payload"] lines of an event list: the type and
    the mode word [run] printed. *)
Definition broadcasts (evs : list (@Event P Handler)) : list (string * string) :=
  omap (λ e, match e with
             | Logged (Broadcasting typ how) => Some (typ, how)
             | _ => None
             end) evs.

(** The indices printed by the ["handler at index"] lines. *)
Definition handler_indices (evs : list (@Event P Handler)) : list nat :=
  omap (λ e, match e with
             | Logged (ProcessingHandler _ i) => Some i
             | _ => None
             end) evs.

(** The indices printed by the ["channel at index"] lines. *)
Definition channel_indices (evs : list (@Event P Handler)) : list nat :=
  omap (λ e, match e with
             | Logged (ProcessingChannel _ i) => Some i
             | _ => None
             end) evs.

(** The events [deliver] can produce: its three log lines, a handler
    call, a channel write. *)
Definition delivery_event (e : @Event P Handler) : bool :=
  match e with
  | Logged (ProcessingHandler _ _) | Logged (HandlerFailed _)
  | Logged (ProcessingChannel _ _) | Call _ _ _ | Send _ _ => true
  | _ => false
  end.

(** The world after the handlers [hs] have been called one after the
    other with [p], each in the world the one before left. *)
Definition world_after (p : P) (hs : list Handler) (w : World) : World :=
  foldl (λ w h, (call h p w).1) w hs.

(** A [Bus] that [New] did not make: the zero value [Bus{}]. *)
Definition zero_bus : @Bus P Handler :=
  {| pubchan := None; subchans := None; handlers := None; flags := None |}.

(** A sequence of operations, each from the state the one before
    left; [None] as soon as one does not return. *)
Fixpoint execs (os : list op) (m : @Machine P World Handler)
  : option (@Machine P World Handler) :=
  match os with
  | [] => Some m
  | o :: os' => match exec o m with
                | Some m' => execs os' m'
                | None => None
                end
  end.

(** No entry of a registration table holds an empty sequence. *)
Definition no_empty_entry {V : Type} (t : option (gmap string (list V))) : Prop :=
  ∀ g typ l, t = Some g → g !! typ = Some l → l ≠ [].

End Steps.

(** ** The fixtures of the package's tests

    [event] stands for the payload the tests build with
    [event.New(name)]; the handlers are those of the test file, and
    [failing] is one more that returns an error.  The world is what
    [handler] has printed. *)

Record event := { name : string; data : gmap string any }.

#[global] Instance event_Payload : Payload event :=
  {| Type' := name; Data := data |}.

Inductive test_handler : Type := h1 | h2 | h3 | h4 | handler | failing.

#[global] Instance test_handler_eq_dec : EqDecision test_handler.
Proof. solve_decision. Defined.

Definition test_call (h : test_handler) (p : event) (w : list (option any))
  : list (option any) * error :=
  match h with
  | handler => (w ++ [Data p !! "count"], None)
  | failing => (w, Some (OtherError "failing"))
  | _ => (w, None)
  end.

Definition test_event (name : string) : event :=
  {| name := name; data := {["count" := AnyInt 23]} |}.

(** A bus with four handlers and two channels for ["x"]. *)
Definition test_machine : @Machine event (list (option any)) test_handler :=
  {| bus := {| pubchan := Some [];
               subchans := Some {["x" := [7; 8]%nat]};
               handlers := Some {["x" := [h1; failing; handler; h1]]};
               flags := None |};
     world := [];
     events := [];
     detached := [] |}.

(** The bus of the tests right after [New()]. *)
Definition test_new : @Machine event (list (option any)) test_handler := New [].

(** The bus of [TestAddHandlers] after its first registration. *)
Definition test_one : @Machine event (list (option any)) test_handler :=
  {| bus := {| pubchan := Some [];
               subchans := Some ∅;
               handlers := Some {["testName" := [h1]]};
               flags := None |};
     world := [];
     events := [Logged Creating];
     detached := [] |}.

(** The new bus after [Post] of an event ["x"], and after a
    [PostAndWait] of the same event on top of it, before the dispatch
    loop has taken a turn. *)
Definition test_posted : @Machine event (list (option any)) test_handler :=
  {| bus := {| pubchan := Some [{| payload := test_event "x"; mode := asynchronous |}];
               subchans := Some ∅;
               handlers := Some ∅;
               flags := None |};
     world := [];
     events := [Logged Creating; Logged (Posting "x")];
     detached := [] |}.

Definition test_posted_twice : @Machine event (list (option any)) test_handler :=
  {| bus := {| pubchan := Some [{| payload := test_event "x"; mode := asynchronous |};
                                {| payload := test_event "x"; mode := synchronous |}];
               subchans := Some ∅;
               handlers := Some ∅;
               flags := None |};
     world := [];
     events := [Logged Creating; Logged (Posting "x"); Logged (Posting "x")];
     detached := [] |}.

(** The zero value [Bus{}], with nothing done yet. *)
Definition test_zero : @Machine event (list (option any)) test_handler :=
  {| bus := zero_bus; world := []; events := []; detached := [] |}.

Example test_deliver :
  events <$> final (deliver test_call {| payload := test_event "x"; mode := synchronous |} test_machine)
  = Some [Logged (ProcessingHandler "x" 0); Call h1 (test_event "x") None;
          Logged (ProcessingHandler "x" 1); Call failing (test_event "x") (Some (OtherError "failing"));
          Logged (HandlerFailed failing);
          Logged (ProcessingHandler "x" 2); Call handler (test_event "x") None;
          Logged (ProcessingHandler "x" 3); Call h1 (test_event "x") None;
          Logged (ProcessingChannel "x" 0); Send 7%nat (test_event "x");
          Logged (ProcessingChannel "x" 1); Send 8%nat (test_event "x")].
Proof. vm_compute. reflexivity. Qed.

Section Properties.

Context {P : Type} `{Payload P}.
Context {World Handler : Type} `{EqDecision Handler}.
Variable call : Handler → P → World → World * error.

Implicit Types (m : @Machine P World Handler) (r : @rider P) (p : P).
Implicit Types (h : Handler) (hs fns : list Handler) (c : Chan) (cs : list Chan).
Implicit Types (typ : string) (evs : list (@Event P Handler)).

(** *** The error text *)

Lemma string_app_assoc (s1 s2 s3 : string) :
  (s1 +:+ s2) +:+ s3 = s1 +:+ (s2 +:+ s3).
Proof.
  induction s1 as [|a s1 IH]; [done|].
  change (String a ((s1 +:+ s2) +:+ s3) = String a (s1 +:+ s2 +:+ s3)).
  by rewrite IH.
Qed.

(** What [TestError] checks with [strings.HasSuffix]. *)
Lemma Error_ends_with_message (show : Time → string) (e : busError) :
  ∃ prefix, Error show e = prefix +:+ What e.
Proof.
  exists ("at " +:+ show (When e) +:+ ", "). unfold Error.
  by rewrite !string_app_assoc.
Qed.

(** *** Projections of event lists *)




Lemma failures_app (l1 l2 : list (Handler * P * error)) :
  failures (l1 ++ l2) = failures l1 ++ failures l2.
Proof. apply omap_app. Qed.


Lemma occurrences_replicate h k : occurrences h (replicate k h) = k.
Proof.
  unfold occurrences. induction k as [|k IH]; [done|].
  simpl. rewrite filter_cons_True by done. simpl. by rewrite IH.
Qed.

(** *** The two loops of [deliver] *)

(** The first loop returns, calls every handler of its slice once and in
    order with the payload, writes no channel, reports exactly the
    calls that failed, and leaves the bus and the waiting goroutines as
    they were. *)
Lemma deliver_handlers_returns hs typ p i m :
  ∃ m' evs,
    deliver_handlers call typ p i hs m = Returned tt m' ∧
    bus m' = bus m ∧ detached m' = detached m ∧
    events m' = events m ++ evs ∧
    (calls evs).*1 = (λ h, (h, p)) <$> hs ∧
    sends evs = [] ∧
    reports evs = failures (calls evs).
Proof.
  revert i m. induction hs as [|h hs IH]; intros i m.
  - exists m, []. simpl. unfold ret. by rewrite app_nil_r.
  - simpl. unfold bind at 1. unfold log at 1, emit. unfold bind at 1.
    unfold invoke at 1. simpl.
    destruct (call h p (world m)) as [w err] eqn:Hcall.
    unfold bind at 1.
    destruct err as [e|].
    + unfold log at 1, emit.
      match goal with |- context [deliver_handlers _ _ _ (S i) hs ?m1] =>
        destruct (IH (S i) m1) as (m' & evs & Hrun & Hbus & Hdet & Hev & Hcalls & Hsends & Hrep)
      end.
      exists m', ([Logged (ProcessingHandler typ i); Call h p (Some e);
                   Logged (HandlerFailed h)] ++ evs).
      rewrite Hrun, Hbus, Hdet, Hev. simpl in *.
      rewrite <- !app_assoc. simpl.
      repeat split; try done.
      * by f_equal.
      * by f_equal.
    + unfold ret at 1.
      match goal with |- context [deliver_handlers _ _ _ (S i) hs ?m1] =>
        destruct (IH (S i) m1) as (m' & evs & Hrun & Hbus & Hdet & Hev & Hcalls & Hsends & Hrep)
      end.
      exists m', ([Logged (ProcessingHandler typ i); Call h p None] ++ evs).
      rewrite Hrun, Hbus, Hdet, Hev. simpl in *.
      rewrite <- !app_assoc. simpl.
      repeat split; try done.
      by f_equal.
Qed.

(** The second loop returns, writes the payload to every channel of its
    slice once and in order, calls no handler, and changes nothing but
    the event list. *)
Lemma deliver_subchans_returns cs typ p i m :
  ∃ m' evs,
    deliver_subchans typ p i cs m = Returned tt m' ∧
    bus m' = bus m ∧ world m' = world m ∧ detached m' = detached m ∧
    events m' = events m ++ evs ∧
    calls evs = [] ∧
    sends evs = (λ c, (c, p)) <$> cs ∧
    reports evs = [].
Proof.
  revert i m. induction cs as [|c cs IH]; intros i m.
  - exists m, []. simpl. unfold ret. by rewrite app_nil_r.
  - simpl. unfold bind at 1. unfold log at 1, emit. unfold bind at 1.
    unfold send at 1, emit. simpl.
    match goal with |- context [deliver_subchans _ _ (S i) cs ?m1] =>
      destruct (IH (S i) m1) as (m' & evs & Hrun & Hbus & Hw & Hdet & Hev & Hcalls & Hsends & Hrep)
    end.
    exists m', ([Logged (ProcessingChannel typ i); Send c p] ++ evs).
    rewrite Hrun, Hbus, Hw, Hdet, Hev. simpl in *.
    rewrite <- !app_assoc. simpl.
    repeat split; try done.
    by f_equal.
Qed.

(** [deliver] in full: the events it adds are those of the handler loop
    followed by those of the channel loop. *)
Lemma deliver_returns r m :
  ∃ m' evs_h evs_c,
    deliver call r m = Returned tt m' ∧
    bus m' = bus m ∧ detached m' = detached m ∧
    events m' = events m ++ evs_h ++ evs_c ∧
    (calls evs_h).*1 = (λ h, (h, payload r)) <$> registered m (Type' (payload r)) ∧
    sends evs_h = [] ∧
    reports evs_h = failures (calls evs_h) ∧
    calls evs_c = [] ∧
    sends evs_c = (λ c, (c, payload r)) <$> queues m (Type' (payload r)) ∧
    reports evs_c = [].
Proof.
  unfold deliver, bind.
  destruct (deliver_handlers_returns
              (index (handlers (bus m)) (Type' (payload r))).1
              (Type' (payload r)) (payload r) 0 m)
    as (m1 & evs_h & Hrun1 & Hbus1 & Hdet1 & Hev1 & Hc1 & Hs1 & Hr1).
  rewrite Hrun1.
  destruct (deliver_subchans_returns
              (index (subchans (bus m1)) (Type' (payload r))).1
              (Type' (payload r)) (payload r) 0 m1)
    as (m2 & evs_c & Hrun2 & Hbus2 & Hw2 & Hdet2 & Hev2 & Hc2 & Hs2 & Hr2).
  rewrite Hrun2.
  exists m2, evs_h, evs_c.
  rewrite Hbus2, Hbus1, Hdet2, Hdet1, Hev2, Hev1, <- app_assoc.
  unfold registered, queues.
  rewrite Hbus1 in Hs2.
  by repeat split.
Qed.

(** *** The dispatch loop *)





(** *** The methods, equation by equation *)

Lemma Post_returns p m q :
  pubchan (bus m) = Some q →
  Post p m
  = Returned None
      {| bus := set_pubchan (Some (q ++ [{| payload := p; mode := asynchronous |}])) (bus m);
         world := world m;
         events := events m ++ [Logged (Posting (Type' p))];
         detached := detached m |}.
Proof. intros Hq. unfold Post, bind, log, emit, send_pubchan. simpl. by rewrite Hq. Qed.

Lemma Post_blocked p m : pubchan (bus m) = None → Post p m = Blocked.
Proof. intros Hq. unfold Post, bind, log, emit, send_pubchan. simpl. by rewrite Hq. Qed.

Lemma PostAndWait_returns p m q :
  pubchan (bus m) = Some q →
  PostAndWait p m
  = Returned None
      {| bus := set_pubchan (Some (q ++ [{| payload := p; mode := synchronous |}])) (bus m);
         world := world m;
         events := events m ++ [Logged (Posting (Type' p))];
         detached := detached m |}.
Proof.
  intros Hq. unfold PostAndWait, bind, log, emit, send_pubchan. simpl. by rewrite Hq.
Qed.

Lemma PostAndWait_blocked p m : pubchan (bus m) = None → PostAndWait p m = Blocked.
Proof.
  intros Hq. unfold PostAndWait, bind, log, emit, send_pubchan. simpl. by rewrite Hq.
Qed.

Lemma AddHandlers_returns now typ fns m hm :
  handlers (bus m) = Some hm → fns ≠ [] →
  AddHandlers now typ fns m
  = Returned None
      (set_bus (set_handlers (Some (<[typ := (index (Some hm) typ).1 ++ fns]> hm))
                             (bus m)) m).
Proof.
  intros Hh Hfns. unfold AddHandlers.
  destruct fns as [|h fns]; [done|].
  rewrite decide_True by (simpl; lia). by rewrite Hh.
Qed.

Lemma AddHandlers_final now typ fns m m' :
  final (AddHandlers now typ fns m) = Some m' →
  (fns = [] ∧ m' = m) ∨
  (fns ≠ [] ∧ ∃ hm, handlers (bus m) = Some hm ∧
     m' = set_bus (set_handlers (Some (<[typ := (index (Some hm) typ).1 ++ fns]> hm))
                                (bus m)) m).
Proof.
  destruct fns as [|h fns].
  - unfold AddHandlers. simpl. intros [= <-]. by left.
  - destruct (handlers (bus m)) as [hm|] eqn:Hh.
    + rewrite (AddHandlers_returns _ _ _ _ hm) by done. simpl. intros [= <-].
      right. split; [done|]. by exists hm.
    + unfold AddHandlers. rewrite decide_True by (simpl; lia). by rewrite Hh.
Qed.

Lemma AddChannel_returns typ c m g :
  subchans (bus m) = Some g →
  AddChannel typ c m
  = Returned tt
      (set_bus (set_subchans (Some (<[typ := default [] (g !! typ) ++ [c]]> g))
                             (bus m)) m).
Proof.
  intros Hs. unfold AddChannel. rewrite Hs. simpl.
  by destruct (g !! typ).
Qed.

Lemma AddChannel_nil_map typ c m :
  subchans (bus m) = None → AddChannel typ c m = Panicked nil_map_panic.
Proof. intros Hs. unfold AddChannel. by rewrite Hs. Qed.

Lemma run_turn_final m m' :
  final (run_turn call m) = Some m' →
  ∃ r q, pubchan (bus m) = Some (r :: q) ∧
    final (run_body call r (set_bus (set_pubchan (Some q) (bus m)) m)) = Some m'.
Proof.
  unfold run_turn, bind, recv_pubchan.
  destruct (pubchan (bus m)) as [[|r q]|]; try done.
  intros Hf. by exists r, q.
Qed.

Lemma run_body_final r m m' :
  final (run_body call r m) = Some m' →
  bus m' = bus m ∧
  (detached m' = detached m ∨ (mode r = asynchronous ∧ detached m' = detached m ++ [r])).
Proof.
  unfold run_body, bind, log, emit.
  destruct (mode r =? asynchronous) eqn:Hm.
  - unfold go_deliver. simpl. intros [= <-]. simpl. split; [done|].
    right. split; [|done]. by apply Z.eqb_eq.
  - match goal with |- context [deliver call r ?m1] =>
      destruct (deliver_returns r m1) as (m2 & ? & ? & Hrun & Hbus & Hdet & _)
    end.
    rewrite Hrun. simpl. intros [= <-]. rewrite Hbus, Hdet. simpl. auto.
Qed.

Lemma resume_final k m m' :
  final (resume call k m) = Some m' →
  bus m' = bus m ∧ detached m' = delete k (detached m).
Proof.
  unfold resume. destruct (detached m !! k) as [r|]; [|done].
  match goal with |- context [deliver call r ?m1] =>
    destruct (deliver_returns r m1) as (m2 & ? & ? & Hrun & Hbus & Hdet & _)
  end.
  rewrite Hrun. simpl. intros [= <-]. by rewrite Hbus, Hdet.
Qed.

(** *** What every operation keeps *)

(** No operation turns a field of the bus into nil (or out of nil);
    [flags] is not even touched. *)
Lemma exec_fields o m m' :
  exec call o m = Some m' →
  (is_Some (pubchan (bus m)) ↔ is_Some (pubchan (bus m'))) ∧
  (is_Some (subchans (bus m)) ↔ is_Some (subchans (bus m'))) ∧
  (is_Some (handlers (bus m)) ↔ is_Some (handlers (bus m'))) ∧
  flags (bus m') = flags (bus m).
Proof.
  destruct o as [msg|p|p|now typ fns|typ c| |k]; simpl.
  - intros [= <-]. done.
  - destruct (pubchan (bus m)) as [q|] eqn:Hq.
    + rewrite (Post_returns _ _ q) by done. simpl. intros [= <-]. simpl.
      repeat split; by eauto.
    + by rewrite Post_blocked.
  - destruct (pubchan (bus m)) as [q|] eqn:Hq.
    + rewrite (PostAndWait_returns _ _ q) by done. simpl. intros [= <-]. simpl.
      repeat split; by eauto.
    + by rewrite PostAndWait_blocked.
  - intros Hf. apply AddHandlers_final in Hf as [[_ ->]|[_ (hm & Hh & ->)]]; [done|].
    simpl. rewrite Hh. repeat split; by eauto.
  - destruct (subchans (bus m)) as [g|] eqn:Hs.
    + rewrite (AddChannel_returns _ _ _ g) by done. simpl. intros [= <-]. simpl.
      repeat split; by eauto.
    + by rewrite AddChannel_nil_map.
  - intros Hf. apply run_turn_final in Hf as (r & q & Hq & Hf).
    apply run_body_final in Hf as [Hbus _]. rewrite Hbus, Hq. simpl.
    repeat split; by eauto.
  - intros Hf. apply resume_final in Hf as [Hbus _]. by rewrite Hbus.
Qed.

(** No operation brings in a rider with a mode other than the two
    declared ones. *)
Lemma exec_pending o m m' :
  exec call o m = Some m' →
  Forall mode_ok (pending m) → Forall mode_ok (pending m').
Proof.
  unfold pending.
  destruct o as [msg|p|p|now typ fns|typ c| |k]; simpl.
  - intros [= <-]. done.
  - destruct (pubchan (bus m)) as [q|] eqn:Hq.
    + rewrite (Post_returns _ _ q) by done. simpl. intros [= <-]. simpl.
      rewrite !Forall_app. intros [? ?]. repeat split; try done.
      apply Forall_singleton. by right.
    + by rewrite Post_blocked.
  - destruct (pubchan (bus m)) as [q|] eqn:Hq.
    + rewrite (PostAndWait_returns _ _ q) by done. simpl. intros [= <-]. simpl.
      rewrite !Forall_app. intros [? ?]. repeat split; try done.
      apply Forall_singleton. by left.
    + by rewrite PostAndWait_blocked.
  - intros Hf. by apply AddHandlers_final in Hf as [[_ ->]|[_ (hm & Hh & ->)]].
  - destruct (subchans (bus m)) as [g|] eqn:Hs.
    + rewrite (AddChannel_returns _ _ _ g) by done. simpl. by intros [= <-].
    + by rewrite AddChannel_nil_map.
  - intros Hf. apply run_turn_final in Hf as (r & q & Hq & Hf).
    apply run_body_final in Hf as [Hbus Hdet]. rewrite Hbus, Hq. simpl.
    rewrite Forall_cons, !Forall_app. intros (Hr & Hrs & Hd).
    destruct Hdet as [->|[_ ->]]; [done|].
    rewrite Forall_app, Forall_singleton. done.
  - intros Hf. apply resume_final in Hf as [Hbus Hdet]. rewrite Hbus, Hdet.
    rewrite !Forall_app. intros [? Hd]. split; [done|].
    rewrite Forall_forall in Hd |- *. intros r Hr. apply Hd.
    by eapply list_elem_of_delete_inv.
Qed.

Lemma New_ready (w : World) : ready (New w : @Machine P World Handler).
Proof.
  unfold ready, pending, New. simpl. repeat split; by eauto.
Qed.

Lemma exec_ready o m m' : exec call o m = Some m' → ready m → ready m'.
Proof.
  intros Hex (Hp & Hs & Hh & Hr).
  destruct (exec_fields _ _ _ Hex) as (Fp & Fs & Fh & _).
  repeat split; [by apply Fp|by apply Fs|by apply Fh|].
  by eapply exec_pending.
Qed.

Lemma reachable_ready m : reachable call m → ready m.
Proof.
  induction 1 as [w|m m' o _ IH Hex]; [apply New_ready|].
  by eapply exec_ready.
Qed.

(** ** Delivery *)






(** The states [run] goes through are reachable ones. *)
Lemma run_loop_reachable n m m' :
  final (run_loop call n m) = Some m' → reachable call m → reachable call m'.
Proof.
  revert m. induction n as [|n IH]; intros m; simpl.
  - by intros [= <-].
  - unfold bind at 1. destruct (run_turn call m) as [[] m1| |] eqn:Hturn; try done.
    intros Hf Hm. apply (IH m1 Hf).
    apply (reachable_exec call m m1 OpRunTurn Hm). simpl. by rewrite Hturn.
Qed.

(** ** Registration *)

(** C2. [AddHandlers] called with a type name and no handler returns a
    non-nil error, the [busError] that carries the time of the call and
    the argument-error message, and leaves the whole state, the handler
    table with it, exactly as it was: an entry absent or empty before
    is absent or empty after, and no other entry is modified. *)
Theorem AddHandlers_without_handlers_fails now typ m :
  AddHandlers now typ [] m
  = Returned (Some (BusError {| When := now; What := argument_error |})) m ∧
  (∀ m', final (AddHandlers now typ [] m) = Some m' →
         handlers (bus m') = handlers (bus m) ∧
         ∀ typ', registered m' typ' = registered m typ').
Proof.
  split; [done|]. simpl. by intros m' [= <-].
Qed.


(** C9. The two branches of [AddChannel] do what one unconditional
    append does: in every state, for every type name and channel, the
    method gives the outcome of
    [b.subchans[typ] = append(b.subchans[typ], c)], and when the table
    exists the new table is the old one with the entry for the type set
    to its former sequence (empty if there was none) followed by the
    channel. *)
Theorem AddChannel_is_append typ c m :
  AddChannel typ c m = AddChannel_append typ c m ∧
  (∀ g, subchans (bus m) = Some g →
        AddChannel typ c m
        = Returned tt
            (set_bus (set_subchans (Some (<[typ := default [] (g !! typ) ++ [c]]> g))
                                   (bus m)) m)).
Proof.
  split; [|intros g Hg; by apply AddChannel_returns].
  unfold AddChannel, AddChannel_append.
  destruct (subchans (bus m)) as [g|]; [|done]. simpl.
  by destruct (g !! typ).
Qed.

(** C10. Registration touches one entry of one table.  When
    [AddHandlers] for [typ] returns, the channel table, the inbound
    channel, the [flags] field, the world, the events and the waiting
    goroutines are unchanged, and so is what the handler table holds
    for every other type; when [AddChannel] for [typ] returns, the same
    holds with the two tables exchanged. *)
Theorem registration_changes_one_entry typ m m' :
  (∀ now fns, final (AddHandlers now typ fns m) = Some m' →
     subchans (bus m') = subchans (bus m) ∧
     pubchan (bus m') = pubchan (bus m) ∧
     flags (bus m') = flags (bus m) ∧
     world m' = world m ∧ events m' = events m ∧ detached m' = detached m ∧
     ∀ typ', typ' ≠ typ →
       index (handlers (bus m')) typ' = index (handlers (bus m)) typ') ∧
  (∀ c, final (AddChannel typ c m) = Some m' →
     handlers (bus m') = handlers (bus m) ∧
     pubchan (bus m') = pubchan (bus m) ∧
     flags (bus m') = flags (bus m) ∧
     world m' = world m ∧ events m' = events m ∧ detached m' = detached m ∧
     ∀ typ', typ' ≠ typ →
       index (subchans (bus m')) typ' = index (subchans (bus m)) typ').
Proof.
  split.
  - intros now fns Hf.
    apply AddHandlers_final in Hf as [[_ ->]|[_ (hm & Hh & ->)]]; [done|].
    simpl. repeat split; try done.
    intros typ' Hne. rewrite Hh. simpl. by rewrite lookup_insert_ne.
  - intros c. destruct (subchans (bus m)) as [g|] eqn:Hs.
    + rewrite (AddChannel_returns _ _ _ g) by done. simpl. intros [= <-].
      simpl. repeat split; try done.
      intros typ' Hne. by rewrite lookup_insert_ne.
    + by rewrite AddChannel_nil_map.
Qed.

(** ** Posting *)


(** C7. The two mode constants are 1 and 2: distinct, with no bit in
    common.  When [Post] returns it has handed over a rider that pairs
    the payload with [asynchronous], and [PostAndWait] one that pairs it
    with [synchronous]; on a bus reached from [New] every rider still to
    be served carries one of the two.  For such a rider the test
    [mode == asynchronous] of the dispatch loop holds exactly when the
    rider is asynchronous and fails exactly when it is synchronous, the
    loop detaches the delivery in the first case and delivers in line in
    the second, and [modestring] names the mode the test finds. *)
Theorem post_modes_are_classified p m :
  (synchronous = 1 ∧ asynchronous = 2 ∧ synchronous ≠ asynchronous ∧
   Z.land synchronous asynchronous = 0) ∧
  (∀ m', final (Post p m) = Some m' →
     ∃ q, pubchan (bus m) = Some q ∧
          pubchan (bus m') = Some (q ++ [{| payload := p; mode := asynchronous |}])) ∧
  (∀ m', final (PostAndWait p m) = Some m' →
     ∃ q, pubchan (bus m) = Some q ∧
          pubchan (bus m') = Some (q ++ [{| payload := p; mode := synchronous |}])) ∧
  (reachable call m →
     ∀ r, r ∈ pending m → mode r = synchronous ∨ mode r = asynchronous) ∧
  (∀ r, mode r = synchronous ∨ mode r = asynchronous →
     ((mode r =? asynchronous) = true ↔ mode r = asynchronous) ∧
     ((mode r =? asynchronous) = false ↔ mode r = synchronous) ∧
     (mode r = asynchronous →
        run_body call r m
        = (log (Broadcasting (Type' (payload r)) "asynchronously") ;; go_deliver r) m) ∧
     (mode r = synchronous →
        run_body call r m
        = (log (Broadcasting (Type' (payload r)) "synchronously") ;; deliver call r) m) ∧
     modestring (mode r)
     = if mode r =? asynchronous then "asynchronously" else "synchronously").
Proof.
  split; [done|]. split; [|split; [|split]].
  - intros m'. destruct (pubchan (bus m)) as [q|] eqn:Hq.
    + rewrite (Post_returns _ _ q) by done. simpl. intros [= <-]. by exists q.
    + by rewrite Post_blocked.
  - intros m'. destruct (pubchan (bus m)) as [q|] eqn:Hq.
    + rewrite (PostAndWait_returns _ _ q) by done. simpl. intros [= <-]. by exists q.
    + by rewrite PostAndWait_blocked.
  - intros Hreach r Hr. apply reachable_ready in Hreach as (_ & _ & _ & Hall).
    rewrite Forall_forall in Hall. by apply Hall.
  - intros r Hmode. repeat split.
    + by intros ?%Z.eqb_eq.
    + by intros ->.
    + destruct Hmode as [->| ->]; [done|]. by intros ?.
    + by intros ->.
    + intros Hm. unfold run_body. by rewrite Hm.
    + intros Hm. unfold run_body. by rewrite Hm.
    + by destruct Hmode as [->| ->].
Qed.

(** ** Construction *)

(** [New] leaves the fourth field of the struct, [flags], nil: nothing
    in the package makes or uses that map. *)
Lemma New_flags_nil (w : World) : flags (bus (New w : @Machine P World Handler)) = None.
Proof. done. Qed.

(** C8. [New] returns a bus whose type-to-channels table and
    type-to-handlers table exist and are empty; every operation that
    follows ([Log], [Post], [PostAndWait], [AddHandlers], [AddChannel],
    a turn of the dispatch loop, a detached fan-out) keeps each map
    field of the bus that is not nil not nil; hence on every bus reached
    from [New] the two tables are never nil. *)
Theorem mappings_never_nil :
  (∀ w : World,
     subchans (bus (New w : @Machine P World Handler)) = Some ∅ ∧
     handlers (bus (New w : @Machine P World Handler)) = Some ∅) ∧
  (∀ o m m', exec call o m = Some m' →
     (is_Some (subchans (bus m)) → is_Some (subchans (bus m'))) ∧
     (is_Some (handlers (bus m)) → is_Some (handlers (bus m'))) ∧
     (is_Some (flags (bus m)) → is_Some (flags (bus m')))) ∧
  (∀ m, reachable call m →
     is_Some (subchans (bus m)) ∧ is_Some (handlers (bus m))).
Proof.
  split; [done|]. split.
  - intros o m m' Hex. destruct (exec_fields _ _ _ Hex) as (_ & Fs & Fh & Ff).
    rewrite Ff. repeat split; [apply Fs|apply Fh|done].
  - intros m Hreach. by apply reachable_ready in Hreach as (_ & ? & ? & _).
Qed.

(** ** Further properties of the code *)

(** *** More on the two loops of [deliver] *)

Lemma handler_indices_app evs1 evs2 :
  handler_indices (evs1 ++ evs2) = handler_indices evs1 ++ handler_indices evs2.
Proof. apply omap_app. Qed.

Lemma channel_indices_app evs1 evs2 :
  channel_indices (evs1 ++ evs2) = channel_indices evs1 ++ channel_indices evs2.
Proof. apply omap_app. Qed.

Lemma postings_app evs1 evs2 : postings (evs1 ++ evs2) = postings evs1 ++ postings evs2.
Proof. apply omap_app. Qed.

Lemma broadcasts_app evs1 evs2 :
  broadcasts (evs1 ++ evs2) = broadcasts evs1 ++ broadcasts evs2.
Proof. apply omap_app. Qed.

Lemma delivery_events_no_posting evs :
  Forall (λ e, delivery_event e = true) evs → postings evs = [] ∧ broadcasts evs = [].
Proof.
  induction 1 as [|e evs He _ [IHp IHb]]; [done|].
  destruct e as [[]| |]; try discriminate He; by split.
Qed.

(** The handler loop numbers its log lines from [i] on, threads the
    world through the handlers, and adds delivery events only. *)
Lemma deliver_handlers_trace hs typ p i m :
  ∃ m' evs,
    deliver_handlers call typ p i hs m = Returned tt m' ∧
    events m' = events m ++ evs ∧
    world m' = world_after call p hs (world m) ∧
    handler_indices evs = seq i (length hs) ∧
    channel_indices evs = [] ∧
    Forall (λ e, delivery_event e = true) evs.
Proof.
  revert i m. induction hs as [|h hs IH]; intros i m.
  - exists m, []. simpl. unfold ret. by rewrite app_nil_r.
  - simpl. unfold bind at 1. unfold log at 1, emit. unfold bind at 1.
    unfold invoke at 1. simpl.
    destruct (call h p (world m)) as [w err] eqn:Hcall.
    unfold bind at 1.
    destruct err as [e|].
    + unfold log at 1, emit.
      match goal with |- context [deliver_handlers _ _ _ (S i) hs ?m1] =>
        destruct (IH (S i) m1) as (m' & evs & Hrun & Hev & Hw & Hi & Hc & Hall)
      end.
      exists m', ([Logged (ProcessingHandler typ i); Call h p (Some e);
                   Logged (HandlerFailed h)] ++ evs).
      rewrite Hrun, Hev, Hw. simpl in *.
      rewrite <- !app_assoc. simpl.
      repeat split; try done.
      * by f_equal.
      * by repeat constructor.
    + unfold ret at 1.
      match goal with |- context [deliver_handlers _ _ _ (S i) hs ?m1] =>
        destruct (IH (S i) m1) as (m' & evs & Hrun & Hev & Hw & Hi & Hc & Hall)
      end.
      exists m', ([Logged (ProcessingHandler typ i); Call h p None] ++ evs).
      rewrite Hrun, Hev, Hw. simpl in *.
      rewrite <- !app_assoc. simpl.
      repeat split; try done.
      * by f_equal.
      * by repeat constructor.
Qed.

Lemma deliver_subchans_trace cs typ p i m :
  ∃ m' evs,
    deliver_subchans typ p i cs m = Returned tt m' ∧
    events m' = events m ++ evs ∧
    handler_indices evs = [] ∧
    channel_indices evs = seq i (length cs) ∧
    Forall (λ e, delivery_event e = true) evs.
Proof.
  revert i m. induction cs as [|c cs IH]; intros i m.
  - exists m, []. simpl. unfold ret. by rewrite app_nil_r.
  - simpl. unfold bind at 1. unfold log at 1, emit. unfold bind at 1.
    unfold send at 1, emit. simpl.
    match goal with |- context [deliver_subchans _ _ (S i) cs ?m1] =>
      destruct (IH (S i) m1) as (m' & evs & Hrun & Hev & Hh & Hi & Hall)
    end.
    exists m', ([Logged (ProcessingChannel typ i); Send c p] ++ evs).
    rewrite Hrun, Hev. simpl in *.
    rewrite <- !app_assoc. simpl.
    repeat split; try done.
    + by f_equal.
    + by repeat constructor.
Qed.

Lemma deliver_trace r m :
  ∃ m' evs,
    deliver call r m = Returned tt m' ∧
    bus m' = bus m ∧ detached m' = detached m ∧
    events m' = events m ++ evs ∧
    world m' = world_after call (payload r) (registered m (Type' (payload r))) (world m) ∧
    handler_indices evs = seq 0 (length (registered m (Type' (payload r)))) ∧
    channel_indices evs = seq 0 (length (queues m (Type' (payload r)))) ∧
    Forall (λ e, delivery_event e = true) evs.
Proof.
  destruct (deliver_returns r m) as (m2 & ? & ? & Hrun & Hbus & Hdet & _).
  exists m2. revert Hrun. unfold deliver, bind, registered, queues.
  destruct (deliver_handlers_returns
              (index (handlers (bus m)) (Type' (payload r))).1
              (Type' (payload r)) (payload r) 0 m)
    as (m1 & ? & Hrun1 & Hbus1 & _ & _ & _ & _ & _).
  destruct (deliver_handlers_trace
              (index (handlers (bus m)) (Type' (payload r))).1
              (Type' (payload r)) (payload r) 0 m)
    as (m1' & evs_h & Hrun1' & Hev1 & Hw1 & Hi1 & Hc1 & Hall1).
  rewrite Hrun1 in Hrun1'. injection Hrun1' as <-.
  rewrite Hrun1, Hbus1.
  destruct (deliver_subchans_returns
              (index (subchans (bus m)) (Type' (payload r))).1
              (Type' (payload r)) (payload r) 0 m1)
    as (m2' & ? & Hrun2 & _ & Hw2 & _).
  destruct (deliver_subchans_trace
              (index (subchans (bus m)) (Type' (payload r))).1
              (Type' (payload r)) (payload r) 0 m1)
    as (m2'' & evs_c & Hrun2' & Hev2 & Hh2 & Hi2 & Hall2).
  rewrite Hrun2 in Hrun2'. injection Hrun2' as <-.
  rewrite Hrun2. intros [= <-].
  exists (evs_h ++ evs_c).
  rewrite Hev2, Hev1, Hw2, Hw1, <- app_assoc.
  rewrite handler_indices_app, channel_indices_app, Hi1, Hc1, Hh2, Hi2, app_nil_r.
  repeat split; try done. by apply Forall_app.
Qed.

(** *** The fan-out and the rest of the bus *)




(** *** What one operation does to the tables and to the events *)

(** An operation that returns either leaves both tables alone, or is a
    registration that rewrites one entry of one of them. *)
Lemma exec_tables o m m' :
  exec call o m = Some m' →
  (handlers (bus m') = handlers (bus m) ∧ subchans (bus m') = subchans (bus m)) ∨
  (∃ typ fns hm, fns ≠ [] ∧ handlers (bus m) = Some hm ∧
     handlers (bus m') = Some (<[typ := (index (Some hm) typ).1 ++ fns]> hm) ∧
     subchans (bus m') = subchans (bus m)) ∨
  (∃ typ c g, subchans (bus m) = Some g ∧
     subchans (bus m') = Some (<[typ := default [] (g !! typ) ++ [c]]> g) ∧
     handlers (bus m') = handlers (bus m)).
Proof.
  destruct o as [msg|p|p|now typ fns|typ c| |k]; simpl.
  - intros [= <-]. by left.
  - destruct (pubchan (bus m)) as [q|] eqn:Hq.
    + rewrite (Post_returns _ _ q) by done. simpl. intros [= <-]. by left.
    + by rewrite Post_blocked.
  - destruct (pubchan (bus m)) as [q|] eqn:Hq.
    + rewrite (PostAndWait_returns _ _ q) by done. simpl. intros [= <-]. by left.
    + by rewrite PostAndWait_blocked.
  - intros Hf. apply AddHandlers_final in Hf as [[_ ->]|[Hne (hm & Hh & ->)]];
      [by left|].
    right. left. by exists typ, fns, hm.
  - destruct (subchans (bus m)) as [g|] eqn:Hs.
    + rewrite (AddChannel_returns _ _ _ g) by done. simpl. intros [= <-].
      right. right. by exists typ, c, g.
    + by rewrite AddChannel_nil_map.
  - intros Hf. apply run_turn_final in Hf as (r & q & Hq & Hf).
    apply run_body_final in Hf as [Hbus _]. rewrite Hbus. by left.
  - intros Hf. apply resume_final in Hf as [Hbus _]. rewrite Hbus. by left.
Qed.

(** The body of the loop returns: it logs one line, then either queues
    the delivery or makes it. *)
Lemma run_body_trace r m :
  ∃ m' evs,
    run_body call r m = Returned tt m' ∧
    bus m' = bus m ∧
    events m'
    = events m ++ Logged (Broadcasting (Type' (payload r)) (modestring (mode r))) :: evs ∧
    Forall (λ e, delivery_event e = true) evs ∧
    detached m' = detached m ++ (if mode r =? asynchronous then [r] else []).
Proof.
  unfold run_body, bind, log, emit.
  destruct (mode r =? asynchronous).
  - unfold go_deliver. simpl. eexists _, []. by repeat split.
  - match goal with |- context [deliver call r ?m1] =>
      destruct (deliver_trace r m1)
        as (m' & evs & Hrun & Hbus & Hdet & Hev & _ & _ & _ & Hall)
    end.
    exists m', evs. rewrite Hrun, Hbus, Hdet, Hev. simpl.
    rewrite <- app_assoc, app_nil_r. by repeat split.
Qed.

Lemma run_turn_trace r q m :
  pubchan (bus m) = Some (r :: q) →
  ∃ m' evs,
    run_turn call m = Returned tt m' ∧
    bus m' = set_pubchan (Some q) (bus m) ∧
    events m'
    = events m ++ Logged (Broadcasting (Type' (payload r)) (modestring (mode r))) :: evs ∧
    Forall (λ e, delivery_event e = true) evs ∧
    detached m' = detached m ++ (if mode r =? asynchronous then [r] else []).
Proof.
  intros Hq. unfold run_turn, bind, recv_pubchan. rewrite Hq.
  destruct (run_body_trace r (set_bus (set_pubchan (Some q) (bus m)) m))
    as (m' & evs & Hrun & Hbus & Hev & Hall & Hdet).
  by exists m', evs.
Qed.

Lemma resume_trace k m m' :
  final (resume call k m) = Some m' →
  ∃ evs, bus m' = bus m ∧ events m' = events m ++ evs ∧
         Forall (λ e, delivery_event e = true) evs.
Proof.
  unfold resume. destruct (detached m !! k) as [r|]; [|done].
  match goal with |- context [deliver call r ?m1] =>
    destruct (deliver_trace r m1)
      as (m2 & evs & Hrun & Hbus & _ & Hev & _ & _ & _ & Hall)
  end.
  rewrite Hrun. simpl. intros [= <-]. by exists evs.
Qed.

(** *** The error, the mode word, the zero bus *)

Lemma land_asynchronous (f : flag) :
  Z.land f asynchronous = if Z.testbit f 1 then asynchronous else 0.
Proof.
  apply Z.bits_inj'. intros n Hn. rewrite Z.land_spec.
  change asynchronous with (2 ^ 1). rewrite Z.pow2_bits_eqb by lia.
  destruct (Z.eqb_spec 1 n) as [<-|Hne].
  - destruct (Z.testbit f 1) eqn:Hf.
    + by rewrite Z.pow2_bits_eqb by lia.
    + by rewrite Z.bits_0.
  - rewrite andb_false_r. destruct (Z.testbit f 1).
    + rewrite Z.pow2_bits_eqb by lia. symmetry. by apply Z.eqb_neq.
    + by rewrite Z.bits_0.
Qed.

(** X1. The text of the error [AddHandlers] returns for no handlers is
    ["at <time>, <message>"]: whatever the time of the call and however
    a time is printed, it starts with ["at "] and ends with the
    argument-error message (what [TestError] checks with
    [strings.HasSuffix]). *)
Theorem argument_error_text (show : Time → string) now typ m :
  ∃ e, AddHandlers now typ [] m = Returned (Some (BusError e)) m ∧
       Error show e = "at " +:+ show now +:+ ", " +:+ argument_error ∧
       ∃ prefix, Error show e = prefix +:+ argument_error.
Proof.
  exists {| When := now; What := argument_error |}.
  split; [done|]. split; [done|].
  apply (Error_ends_with_message show {| When := now; What := argument_error |}).
Qed.

(** X2. [modestring] looks at one bit and [run] at the whole flag.  For
    every flag, [modestring] answers ["asynchronously"] exactly when bit
    1 is set and ["synchronously"] otherwise; the loop detaches the
    delivery exactly when the flag equals [asynchronous].  So for a
    rider whose mode has bit 1 set without being [asynchronous] the
    loop logs ["asynchronously"] and yet delivers in line. *)
Theorem modestring_tests_one_bit (f : flag) :
  (modestring f = "asynchronously" ↔ Z.testbit f 1 = true) ∧
  (modestring f = "synchronously" ↔ Z.testbit f 1 = false) ∧
  (∀ r m, mode r = f → Z.testbit f 1 = true → f ≠ asynchronous →
     run_body call r m
     = (log (Broadcasting (Type' (payload r)) "asynchronously") ;; deliver call r) m).
Proof.
  assert (modestring f = if Z.testbit f 1 then "asynchronously" else "synchronously")
    as Hms.
  { unfold modestring. rewrite land_asynchronous. by destruct (Z.testbit f 1). }
  split; [|split].
  - rewrite Hms. by destruct (Z.testbit f 1).
  - rewrite Hms. by destruct (Z.testbit f 1).
  - intros r m Hr Hbit Hne. unfold run_body. rewrite Hr, Hms, Hbit.
    by apply Z.eqb_neq in Hne as ->.
Qed.

(** X3. On the zero value [Bus{}], which [New] did not make, the maps
    and the channel are nil: [AddHandlers] with at least one handler
    and [AddChannel] panic on the write to a nil map, [Post] and
    [PostAndWait] block on the send, a turn of the dispatch loop blocks
    on the receive, and a fan-out, which only reads the maps, returns
    and changes nothing. *)
Theorem zero_bus_methods m :
  bus m = zero_bus →
  (∀ now typ fns, fns ≠ [] → AddHandlers now typ fns m = Panicked nil_map_panic) ∧
  (∀ typ c, AddChannel typ c m = Panicked nil_map_panic) ∧
  (∀ p, Post p m = Blocked ∧ PostAndWait p m = Blocked) ∧
  run_turn call m = Blocked ∧
  (∀ r, deliver call r m = Returned tt m).
Proof.
  intros Hz. repeat split.
  - intros now typ [|h fns] Hne; [done|]. unfold AddHandlers.
    rewrite decide_True by (simpl; lia). by rewrite Hz.
  - intros typ c. apply AddChannel_nil_map. by rewrite Hz.
  - apply Post_blocked. by rewrite Hz.
  - apply PostAndWait_blocked. by rewrite Hz.
  - unfold run_turn, bind, recv_pubchan. by rewrite Hz.
  - intros r. unfold deliver, bind. rewrite Hz. simpl. unfold ret.
    by rewrite Hz.
Qed.

(** *** Channels *)



(** *** The dispatch loop, turn after turn *)





(** *** The tables over time *)

Lemma exec_no_empty_entry o m m' :
  exec call o m = Some m' →
  no_empty_entry (handlers (bus m)) ∧ no_empty_entry (subchans (bus m)) →
  no_empty_entry (handlers (bus m')) ∧ no_empty_entry (subchans (bus m')).
Proof.
  intros Hex [Hh Hs].
  destruct (exec_tables _ _ _ Hex)
    as [[-> ->]|[(typ & fns & hm & Hne & Hm & -> & ->)|(typ & c & g & Hm & -> & ->)]];
    [done| |].
  - split; [|done]. intros g' typ' l [= <-].
    destruct (decide (typ = typ')) as [<-|Hd].
    + rewrite lookup_insert_eq. intros [= <-]. by intros [_ ?]%app_eq_nil.
    + rewrite lookup_insert_ne by done. by apply Hh.
  - split; [done|]. intros g' typ' l [= <-].
    destruct (decide (typ = typ')) as [<-|Hd].
    + rewrite lookup_insert_eq. intros [= <-]. by intros [_ ?]%app_eq_nil.
    + rewrite lookup_insert_ne by done. by apply Hs.
Qed.

Lemma reachable_no_empty_entry m :
  reachable call m →
  no_empty_entry (handlers (bus m)) ∧ no_empty_entry (subchans (bus m)).
Proof.
  induction 1 as [w|m m' o _ IH Hex].
  - split; intros g typ l [= <-]; by rewrite lookup_empty.
  - by eapply exec_no_empty_entry.
Qed.

(** X9. On a bus made by [New] a table never holds an empty entry:
    because [AddHandlers] refuses an empty registration and
    [AddChannel] adds one channel, a type is a key of the handler
    table (the comma-ok lookup succeeds) exactly when at least one
    handler is registered for it, and likewise for the channel table. *)
Theorem registered_types_have_entries m typ :
  reachable call m →
  ((index (handlers (bus m)) typ).2 = true ↔ registered m typ ≠ []) ∧
  ((index (subchans (bus m)) typ).2 = true ↔ queues m typ ≠ []).
Proof.
  intros [Hh Hs]%reachable_no_empty_entry. unfold registered, queues, index.
  split.
  - destruct (handlers (bus m)) as [g|] eqn:Hg; [|by split].
    destruct (g !! typ) as [l|] eqn:Hl; [|by split]. simpl.
    split; [|done]. intros _. by eapply Hh.
  - destruct (subchans (bus m)) as [g|] eqn:Hg; [|by split].
    destruct (g !! typ) as [l|] eqn:Hl; [|by split]. simpl.
    split; [|done]. intros _. by eapply Hs.
Qed.

Lemma exec_prefix o m m' typ :
  exec call o m = Some m' →
  registered m typ `prefix_of` registered m' typ ∧
  queues m typ `prefix_of` queues m' typ.
Proof.
  intros Hex. unfold registered, queues.
  destruct (exec_tables _ _ _ Hex)
    as [[-> ->]|[(typ0 & fns & hm & Hne & Hm & -> & ->)|(typ0 & c & g & Hm & -> & ->)]];
    [done| |].
  - split; [|done]. rewrite Hm. simpl.
    destruct (decide (typ0 = typ)) as [<-|Hd].
    + rewrite lookup_insert_eq. simpl. by apply prefix_app_r.
    + by rewrite lookup_insert_ne.
  - split; [done|]. rewrite Hm. simpl.
    destruct (decide (typ0 = typ)) as [<-|Hd].
    + rewrite lookup_insert_eq. simpl.
      destruct (g !! typ0); simpl; [by apply prefix_app_r|by apply prefix_nil].
    + by rewrite lookup_insert_ne.
Qed.

(** X10. Registration is append-only.  Whatever operations are run, in
    whatever order, the handlers registered for a type before are an
    initial part of those registered after, and so are the channels:
    nothing in the package removes, replaces or reorders a
    registration. *)
Theorem registrations_only_grow os m m' typ :
  execs call os m = Some m' →
  registered m typ `prefix_of` registered m' typ ∧
  queues m typ `prefix_of` queues m' typ.
Proof.
  revert m. induction os as [|o os IH]; intros m; simpl.
  - by intros [= <-].
  - destruct (exec call o m) as [m1|] eqn:Hex; [|done].
    intros Hos. destruct (exec_prefix _ _ _ typ Hex) as [Hr Hq].
    destruct (IH _ Hos) as [Hr' Hq'].
    split; by etrans.
Qed.

(** *** The riders over time *)

Lemma exec_posted o m m' :
  exec call o m = Some m' →
  length (postings (events m))
  = (length (default [] (pubchan (bus m))) + length (broadcasts (events m)))%nat →
  length (postings (events m'))
  = (length (default [] (pubchan (bus m'))) + length (broadcasts (events m')))%nat.
Proof.
  destruct o as [msg|p|p|now typ fns|typ c| |k]; simpl.
  - intros [= <-]. simpl. rewrite postings_app, broadcasts_app. simpl.
    by rewrite !app_nil_r.
  - destruct (pubchan (bus m)) as [q|] eqn:Hq.
    + rewrite (Post_returns _ _ q) by done. simpl. intros [= <-]. simpl.
      rewrite postings_app, broadcasts_app, !length_app. simpl. lia.
    + by rewrite Post_blocked.
  - destruct (pubchan (bus m)) as [q|] eqn:Hq.
    + rewrite (PostAndWait_returns _ _ q) by done. simpl. intros [= <-]. simpl.
      rewrite postings_app, broadcasts_app, !length_app. simpl. lia.
    + by rewrite PostAndWait_blocked.
  - intros Hf. by apply AddHandlers_final in Hf as [[_ ->]|[_ (hm & Hh & ->)]].
  - destruct (subchans (bus m)) as [g|] eqn:Hs.
    + rewrite (AddChannel_returns _ _ _ g) by done. simpl. by intros [= <-].
    + by rewrite AddChannel_nil_map.
  - intros Hf. destruct (run_turn_final _ _ Hf) as (r & q & Hq & _).
    destruct (run_turn_trace r q m Hq) as (m1 & evs & Hturn & Hbus & Hev & Hall & _).
    rewrite Hturn in Hf. injection Hf as <-.
    destruct (delivery_events_no_posting _ Hall) as [Hp Hb].
    rewrite Hbus, Hev, Hq.
    change (?e :: evs) with ([e] ++ evs).
    rewrite !postings_app, !broadcasts_app, Hp, Hb, !length_app. simpl. lia.
  - intros Hf. apply resume_trace in Hf as (evs & Hbus & Hev & Hall).
    destruct (delivery_events_no_posting _ Hall) as [Hp Hb].
    rewrite Hbus, Hev, postings_app, broadcasts_app, Hp, Hb, !app_nil_r. done.
Qed.

(** X11. No rider is lost and none is served twice.  On a bus made by
    [New], whatever has been done since, there are as many
    ["Posting"] log lines as there are riders waiting in the inbound
    channel and ["Broadcasting"] log lines together: every payload
    posted is either still waiting or has been received by the
    dispatch loop exactly once. *)
Theorem posted_riders_are_conserved m :
  reachable call m →
  length (postings (events m))
  = (length (default [] (pubchan (bus m))) + length (broadcasts (events m)))%nat.
Proof.
  induction 1 as [w|m m' o _ IH Hex]; [done|].
  by eapply exec_posted.
Qed.

(** X12. An asynchronous post does not wait for the handlers.  On an
    idle bus, after [Post] and the turn of the dispatch loop that
    receives the rider, both have returned and no handler has been
    called and no channel written: the world is as it was, the events
    added are the two log lines, and the delivery is waiting as a
    goroutine of its own. *)
Theorem Post_defers_delivery p m :
  pubchan (bus m) = Some [] →
  ∃ m1,
    (Post p ;; run_turn call) m = Returned tt m1 ∧
    world m1 = world m ∧
    events m1 = events m ++ [Logged (Posting (Type' p));
                             Logged (Broadcasting (Type' p) "asynchronously")] ∧
    pubchan (bus m1) = Some [] ∧
    detached m1 = detached m ++ [{| payload := p; mode := asynchronous |}].
Proof.
  intros Hq. unfold bind at 1. rewrite (Post_returns _ _ []) by done.
  unfold run_turn, bind, recv_pubchan. simpl.
  eexists. split; [done|]. simpl. by rewrite <- app_assoc.
Qed.

(** X15. The fourth field of the struct is dead: [New] leaves [flags]
    nil and no operation ever makes the map, so it is nil on every bus
    made by [New], whatever has been done since. *)
Theorem flags_stays_nil m : reachable call m → flags (bus m) = None.
Proof.
  induction 1 as [w|m m' o _ IH Hex]; [done|].
  destruct (exec_fields _ _ _ Hex) as (_ & _ & _ & Hf). by rewrite Hf.
Qed.

End Properties.

(** ** The theorems at the fixtures of the tests *)

Example test_AddHandlers_first :
  AddHandlers 0 "testName" [h1] test_new = Returned None test_one.
Proof. vm_compute. reflexivity. Qed.

Example test_AddHandlers_one_then_three :
  (λ m, length (registered m "testName"))
    <$> final (AddHandlers 0 "testName" [h2; h3; h4] test_one)
  = Some 4%nat.
Proof. vm_compute. reflexivity. Qed.

Example test_zero_bus_panics :
  AddChannel "x" 7%nat
    ({| bus := {| pubchan := None; subchans := None; handlers := None; flags := None |};
        world := []; events := []; detached := [] |}
     : @Machine event (list (option any)) test_handler)
  = Panicked nil_map_panic.
Proof. reflexivity. Qed.

(** One handler registered three times, in two calls, is called three
    times by one fan-out. *)
Example test_same_handler_three_times :
  (λ m, occurrences h1 (calls (events m)).*1.*1)
    <$> final ((AddHandlers 0 "x" [h1; h1] ;;
                AddHandlers 0 "x" [h1] ;;
                deliver test_call {| payload := test_event "x"; mode := synchronous |})
                 test_new)
  = Some 3%nat.
Proof. vm_compute. reflexivity. Qed.

(** A synchronous and an asynchronous post, each served by the dispatch
    loop, make the same calls. *)
Example test_post_both_modes :
  (λ m, (calls (events m)).*1.*1)
    <$> final ((AddHandlers 0 "x" [h1; h2; h3; h4] ;;
                Post (test_event "x") ;; run_turn test_call ;; resume test_call 0 ;;
                PostAndWait (test_event "x") ;; run_turn test_call) test_new)
  = Some [h1; h2; h3; h4; h1; h2; h3; h4].
Proof. vm_compute. reflexivity. Qed.

(** Each claim's theorem applied to these fixtures. *)


Lemma AddHandlers_without_handlers_fails_witness :
  AddHandlers 1446336000 "testName" [] test_new
  = Returned (Some (BusError {| When := 1446336000; What := argument_error |})) test_new ∧
  (∀ m', final (AddHandlers 1446336000 "testName" [] test_new) = Some m' →
         handlers (bus m') = handlers (bus test_new) ∧
         ∀ typ', registered m' typ' = registered test_new typ').
Proof.
  exact (AddHandlers_without_handlers_fails 1446336000 "testName" test_new).
Defined.





Lemma post_modes_are_classified_witness :
  final (Post (test_event "x") test_new) = Some test_posted ∧
  final (PostAndWait (test_event "x") test_posted) = Some test_posted_twice ∧
  reachable test_call test_posted_twice ∧
  (∃ q, pubchan (bus test_new) = Some q ∧
        pubchan (bus test_posted)
        = Some (q ++ [{| payload := test_event "x"; mode := asynchronous |}])) ∧
  (∃ q, pubchan (bus test_posted) = Some q ∧
        pubchan (bus test_posted_twice)
        = Some (q ++ [{| payload := test_event "x"; mode := synchronous |}])) ∧
  (∀ r, r ∈ pending test_posted_twice →
        mode r = synchronous ∨ mode r = asynchronous) ∧
  run_body test_call {| payload := test_event "x"; mode := asynchronous |} test_new
  = (log (Broadcasting "x" "asynchronously") ;;
     go_deliver {| payload := test_event "x"; mode := asynchronous |}) test_new.
Proof.
  assert (final (Post (test_event "x") test_new) = Some test_posted) as H1
    by (vm_compute; reflexivity).
  assert (final (PostAndWait (test_event "x") test_posted) = Some test_posted_twice) as H2
    by (vm_compute; reflexivity).
  assert (reachable test_call test_posted_twice) as H3.
  { apply (reachable_exec test_call test_posted _ (OpPostAndWait (test_event "x")));
      [|exact H2].
    apply (reachable_exec test_call test_new _ (OpPost (test_event "x")));
      [|exact H1].
    apply reachable_New. }
  destruct (post_modes_are_classified test_call (test_event "x") test_new)
    as (_ & Hpost & _ & _ & Hclass).
  destruct (post_modes_are_classified test_call (test_event "x") test_posted)
    as (_ & _ & Hwait & _).
  destruct (post_modes_are_classified test_call (test_event "x") test_posted_twice)
    as (_ & _ & _ & Hreach & _).
  destruct (Hclass {| payload := test_event "x"; mode := asynchronous |}
              (or_intror eq_refl)) as (_ & _ & Hasync & _).
  repeat (split; [assumption|]).
  split; [exact (Hpost _ H1)|]. split; [exact (Hwait _ H2)|].
  split; [exact (Hreach H3)|]. exact (Hasync eq_refl).
Defined.

Lemma mappings_never_nil_witness :
  exec test_call (OpAddHandlers 0 "testName" [h1]) test_new = Some test_one ∧
  is_Some (subchans (bus test_new)) ∧
  is_Some (handlers (bus test_new)) ∧
  reachable test_call test_one ∧
  is_Some (subchans (bus test_one)) ∧
  is_Some (handlers (bus test_one)).
Proof.
  assert (exec test_call (OpAddHandlers 0 "testName" [h1]) test_new = Some test_one) as H1
    by (vm_compute; reflexivity).
  assert (is_Some (subchans (bus test_new))) as H2 by (eexists; reflexivity).
  assert (is_Some (handlers (bus test_new))) as H3 by (eexists; reflexivity).
  assert (reachable test_call test_one) as H4.
  { apply (reachable_exec test_call test_new test_one
             (OpAddHandlers 0 "testName" [h1])); [apply reachable_New|exact H1]. }
  destruct (mappings_never_nil test_call) as (_ & Hkeep & Hreach).
  destruct (Hkeep _ _ _ H1) as (Hs & Hh & _).
  split; [exact H1|]. split; [exact H2|]. split; [exact H3|]. split; [exact H4|].
  split; [exact (Hs H2)|exact (Hh H3)].
Defined.

Lemma AddChannel_is_append_witness :
  subchans (bus test_machine) = Some {["x" := [7; 8]%nat]} ∧
  AddChannel "x" 9%nat test_machine = AddChannel_append "x" 9%nat test_machine ∧
  AddChannel "x" 9%nat test_machine
  = Returned tt
      (set_bus (set_subchans
                  (Some (<["x" := default [] (({["x" := [7; 8]%nat]} : gmap string (list Chan)) !! "x")
                                  ++ [9%nat]]> {["x" := [7; 8]%nat]}))
                  (bus test_machine)) test_machine).
Proof.
  assert (subchans (bus test_machine) = Some {["x" := [7; 8]%nat]}) as H1 by reflexivity.
  destruct (AddChannel_is_append (World := list (option any)) (Handler := test_handler)
              "x" 9%nat test_machine) as [Heq Hnew].
  split; [exact H1|]. split; [exact Heq|]. exact (Hnew _ H1).
Defined.

Lemma registration_changes_one_entry_witness :
  final (AddHandlers 0 "testName" [h1] test_new) = Some test_one ∧
  "x" ≠ "testName" ∧
  subchans (bus test_one) = subchans (bus test_new) ∧
  pubchan (bus test_one) = pubchan (bus test_new) ∧
  events test_one = events test_new ∧
  index (handlers (bus test_one)) "x" = index (handlers (bus test_new)) "x".
Proof.
  assert (final (AddHandlers 0 "testName" [h1] test_new) = Some test_one) as H1
    by (vm_compute; reflexivity).
  assert ("x" ≠ "testName") as H2 by discriminate.
  destruct (registration_changes_one_entry "testName" test_new test_one) as [Hh _].
  destruct (Hh 0 [h1] H1) as (Hs & Hp & _ & _ & He & _ & Hother).
  repeat (split; [assumption|]). exact (Hother "x" H2).
Defined.

(** The further properties at the same fixtures. *)

Lemma modestring_tests_one_bit_witness :
  Z.testbit 3 1 = true ∧ 3 ≠ asynchronous ∧
  modestring 3 = "asynchronously" ∧
  run_body test_call {| payload := test_event "x"; mode := 3 |} test_machine
  = (log (Broadcasting "x" "asynchronously") ;;
     deliver test_call {| payload := test_event "x"; mode := 3 |}) test_machine.
Proof.
  assert (Z.testbit 3 1 = true) as H1 by reflexivity.
  assert (3 ≠ asynchronous) as H2 by discriminate.
  destruct (modestring_tests_one_bit test_call 3) as (Hword & _ & Hrun).
  split; [exact H1|]. split; [exact H2|].
  split; [exact (proj2 Hword H1)|].
  exact (Hrun {| payload := test_event "x"; mode := 3 |} test_machine eq_refl H1 H2).
Defined.

Lemma zero_bus_methods_witness :
  bus test_zero = zero_bus ∧
  [h1] ≠ [] ∧
  AddHandlers 0 "x" [h1] test_zero = Panicked nil_map_panic ∧
  AddChannel "x" 7%nat test_zero = Panicked nil_map_panic ∧
  Post (test_event "x") test_zero = Blocked ∧
  run_turn test_call test_zero = Blocked ∧
  deliver test_call {| payload := test_event "x"; mode := synchronous |} test_zero
  = Returned tt test_zero.
Proof.
  assert (bus test_zero = zero_bus) as H1 by reflexivity.
  assert ([h1] ≠ []) as H2 by discriminate.
  destruct (zero_bus_methods test_call test_zero H1) as (Ha & Hc & Hp & Hr & Hd).
  split; [exact H1|]. split; [exact H2|].
  split; [exact (Ha 0 "x" [h1] H2)|]. split; [exact (Hc "x" 7%nat)|].
  split; [exact (proj1 (Hp (test_event "x")))|]. split; [exact Hr|].
  exact (Hd {| payload := test_event "x"; mode := synchronous |}).
Defined.




Lemma registered_types_have_entries_witness :
  reachable test_call test_one ∧
  (index (handlers (bus test_one)) "testName").2 = true ∧
  registered test_one "testName" ≠ [] ∧
  (index (handlers (bus test_one)) "x").2 ≠ true.
Proof.
  assert (reachable test_call test_one) as H1.
  { apply (reachable_exec test_call test_new test_one
             (OpAddHandlers 0 "testName" [h1])); [apply reachable_New|].
    vm_compute. reflexivity. }
  assert ((index (handlers (bus test_one)) "testName").2 = true) as H2
    by (vm_compute; reflexivity).
  destruct (registered_types_have_entries test_call test_one "testName" H1) as [Hh _].
  destruct (registered_types_have_entries test_call test_one "x" H1) as [Hx _].
  split; [exact H1|]. split; [exact H2|]. split; [exact (proj1 Hh H2)|].
  intros Hok. exact (proj1 Hx Hok eq_refl).
Defined.

Lemma registrations_only_grow_witness :
  execs test_call [OpAddHandlers 0 "testName" [h1]; OpAddChannel "testName" 7%nat;
                   OpAddHandlers 1 "testName" [h2; h3; h4]] test_new
  = Some (set_bus (set_subchans (Some {["testName" := [7%nat]]})
                     (set_handlers (Some {["testName" := [h1; h2; h3; h4]]})
                        (bus test_new))) test_new) ∧
  registered test_new "testName"
    `prefix_of` [h1; h2; h3; h4] ∧
  queues test_new "testName" `prefix_of` [7%nat].
Proof.
  assert (execs test_call
            [OpAddHandlers 0 "testName" [h1]; OpAddChannel "testName" 7%nat;
             OpAddHandlers 1 "testName" [h2; h3; h4]] test_new
          = Some (set_bus (set_subchans (Some {["testName" := [7%nat]]})
                             (set_handlers (Some {["testName" := [h1; h2; h3; h4]]})
                                (bus test_new))) test_new)) as H1
    by (vm_compute; reflexivity).
  split; [exact H1|].
  exact (registrations_only_grow test_call _ test_new _ "testName" H1).
Defined.

Lemma posted_riders_are_conserved_witness :
  reachable test_call test_posted_twice ∧
  length (postings (events test_posted_twice))
  = (length (default [] (pubchan (bus test_posted_twice)))
     + length (broadcasts (events test_posted_twice)))%nat.
Proof.
  assert (reachable test_call test_posted_twice) as H1.
  { apply (reachable_exec test_call test_posted _ (OpPostAndWait (test_event "x")));
      [|vm_compute; reflexivity].
    apply (reachable_exec test_call test_new _ (OpPost (test_event "x")));
      [|vm_compute; reflexivity].
    apply reachable_New. }
  split; [exact H1|].
  exact (posted_riders_are_conserved test_call test_posted_twice H1).
Defined.

Lemma Post_defers_delivery_witness :
  pubchan (bus test_machine) = Some [] ∧
  ∃ m1,
    (Post (test_event "x") ;; run_turn test_call) test_machine = Returned tt m1 ∧
    world m1 = world test_machine ∧
    events m1 = events test_machine ++ [Logged (Posting "x");
                                        Logged (Broadcasting "x" "asynchronously")] ∧
    pubchan (bus m1) = Some [] ∧
    detached m1
    = detached test_machine ++ [{| payload := test_event "x"; mode := asynchronous |}].
Proof.
  assert (pubchan (bus test_machine) = Some []) as H1 by reflexivity.
  split; [exact H1|].
  exact (Post_defers_delivery test_call (test_event "x") test_machine H1).
Defined.



Lemma flags_stays_nil_witness :
  reachable test_call test_one ∧ flags (bus test_one) = None.
Proof.
  assert (reachable test_call test_one) as H1.
  { apply (reachable_exec test_call test_new test_one
             (OpAddHandlers 0 "testName" [h1])); [apply reachable_New|].
    vm_compute. reflexivity. }
  split; [exact H1|]. exact (flags_stays_nil test_call test_one H1).
Defined.
